(** * cypress_soft_assert: the soft-assertion shim, embedded and verified

    The shim keeps three module-level variables ([softAssertionErrors],
    [isInSoftTest], [originalAssert]) and overwrites one slot of the assertion
    engine, [chai.Assertion.prototype.assert].  The embedding threads these four
    cells through every operation as an explicit [State]; code that can throw
    lives in a small state-and-exception monad [Exec]. *)

From Stdlib Require Import List String Ascii Arith Lia Bool.
From Stdlib Require Import DecimalString.
Import ListNotations.
Local Open Scope list_scope.
Local Open Scope string_scope.

(** ** JavaScript data *)

(** The values that flow through an assertion call as receiver, arguments and
    return value.  The shim never inspects them. *)
Inductive Value : Type :=
| VUndefined
| VNull
| VBool (b : bool)
| VNum (n : nat)
| VStr (s : string)
| VObj (id : nat).

(** A thrown [Error] object: the shim reads [message] and [stack] and writes
    [name].  The assertion engine raises [AssertionError] objects, the test
    runner and the shim raise [Error] objects; the embedding takes every thrown
    value to be such an object. *)
Record JsError : Type := mkError {
  err_name : string;
  err_message : string;
  err_stack : option string
}.

(** [interface ErrorEntry { message: string; stack?: string }] *)
Record ErrorEntry : Type := mkEntry {
  message : string;
  stack : option string
}.

(** How a JavaScript call completes. *)
Inductive Outcome (A : Type) : Type :=
| Returned (v : A)
| Thrown (e : JsError).
Arguments Returned {A} v.
Arguments Thrown {A} e.

(** A function that can sit in the engine's [assert] slot.  [Native] is any
    routine the shim did not create, given by what it does with its receiver and
    arguments: it cannot reach the shim's module-private variables.  [Wrapper] is
    the closure built by [setupSoftAssertions]; every such closure has the same
    code over the same module variables and the shim never compares functions,
    so the closures are one constructor. *)
Inductive Routine : Type :=
| Native (body : Value -> list Value -> Outcome Value)
| Wrapper.

(** What the JavaScript engine supplies and the source does not spell out. *)
Record Engine : Type := mkEngine {
  (** the [stack] of [new Error(msg)] *)
  new_error_stack : string -> option string;
  (** the [TypeError] raised by [null.apply(...)] *)
  null_apply_error : JsError
}.

(** ** The shim's state *)

Record State : Type := mkState {
  softAssertionErrors : list ErrorEntry;
  isInSoftTest : bool;
  originalAssert : option Routine;
  (** [chai.Assertion.prototype.assert] *)
  chai_assert : Routine
}.

Definition set_softAssertionErrors (l : list ErrorEntry) (st : State) : State :=
  mkState l (isInSoftTest st) (originalAssert st) (chai_assert st).

Definition set_isInSoftTest (b : bool) (st : State) : State :=
  mkState (softAssertionErrors st) b (originalAssert st) (chai_assert st).

Definition set_originalAssert (o : option Routine) (st : State) : State :=
  mkState (softAssertionErrors st) (isInSoftTest st) o (chai_assert st).

Definition set_chai_assert (r : Routine) (st : State) : State :=
  mkState (softAssertionErrors st) (isInSoftTest st) (originalAssert st) r.

(** The module as loaded: lines 14-16, over whatever routine the engine has. *)
Definition initial_state (engine_assert : Routine) : State :=
  mkState [] false None engine_assert.

(** ** The execution monad *)

(** A computation reads and writes the state and either returns or throws.
    [None] stands for a call depth beyond the fuel given to [call] below. *)
Definition Exec (A : Type) : Type := State -> option (Outcome A * State).

Definition ret {A} (v : A) : Exec A := fun st => Some (Returned v, st).

Definition throw {A} (e : JsError) : Exec A := fun st => Some (Thrown e, st).

Definition bind {A B} (m : Exec A) (k : A -> Exec B) : Exec B :=
  fun st =>
    match m st with
    | None => None
    | Some (Returned v, st') => k v st'
    | Some (Thrown e, st') => Some (Thrown e, st')
    end.

Definition try_catch {A} (m : Exec A) (handler : JsError -> Exec A) : Exec A :=
  fun st =>
    match m st with
    | None => None
    | Some (Returned v, st') => Some (Returned v, st')
    | Some (Thrown e, st') => handler e st'
    end.

Definition gets {A} (f : State -> A) : Exec A := fun st => Some (Returned (f st), st).

Definition modify (f : State -> State) : Exec unit := fun st => Some (Returned tt, f st).

Definition lift_outcome {A} (o : Outcome A) : Exec A := fun st => Some (o, st).

Definition out_of_fuel {A} : Exec A := fun _ => None.

Declare Scope exec_scope.
Delimit Scope exec_scope with exec.
Notation "x <- m ;; k" := (bind m (fun x => k))
  (at level 61, m at next level, right associativity) : exec_scope.
Notation "m ;; k" := (bind m (fun _ => k))
  (at level 61, right associativity) : exec_scope.
Local Open Scope exec_scope.

(** ** Assertion Interceptor (lines 21-55) *)

Section Shim.

Variable engine : Engine.

(** [softAssertionErrors.push({ message: error.message, stack: error.stack })] *)
Definition push_entry (error : JsError) : Exec unit :=
  modify (fun st =>
    set_softAssertionErrors
      (softAssertionErrors st ++ [mkEntry (err_message error) (err_stack error)])%list st).

(** Calling a routine.  The wrapper is lines 28-45; [originalAssert] is read when
    the wrapper runs, and [f.apply(this, args)] on [null] is a [TypeError]. *)
Fixpoint call (fuel : nat) (r : Routine) (this : Value) (args : list Value)
  : Exec Value :=
  match fuel with
  | O => out_of_fuel
  | S fuel' =>
    let apply_original : Exec Value :=
      orig <- gets originalAssert ;;
      match orig with
      | None => throw (null_apply_error engine)
      | Some f => call fuel' f this args
      end in
    match r with
    | Native body => lift_outcome (body this args)
    | Wrapper =>
      soft <- gets isInSoftTest ;;
      if soft then
        try_catch (apply_original ;; ret tt)
                  (fun error => push_entry error) ;;
        ret VUndefined
      else
        apply_original ;;
        ret VUndefined
    end
  end.

(** [originalAssert.apply(this, args)] on its own, as the wrapper evaluates it. *)
Definition apply_original (fuel : nat) (this : Value) (args : list Value)
  : Exec Value :=
  orig <- gets originalAssert ;;
  match orig with
  | None => throw (null_apply_error engine)
  | Some f => call fuel f this args
  end.

(** [setupSoftAssertions], lines 21-46. *)
Definition setupSoftAssertions (st : State) : State :=
  let st1 :=
    match originalAssert st with
    | None => set_originalAssert (Some (chai_assert st)) st
    | Some _ => st
    end in
  set_chai_assert Wrapper st1.

(** [restoreAssertions], lines 51-55. *)
Definition restoreAssertions (st : State) : State :=
  match originalAssert st with
  | Some f => set_chai_assert f st
  | None => st
  end.


(** ** Aggregate Reporter (lines 60-85) *)

(** [Array.prototype.map] with the callback's index argument. *)
Fixpoint map_from {A B} (f : A -> nat -> B) (index : nat) (l : list A) : list B :=
  match l with
  | [] => []
  | x :: rest => f x index :: map_from f (S index) rest
  end.

Definition array_map {A B} (f : A -> nat -> B) (l : list A) : list B :=
  map_from f 0 l.

(** [Array.prototype.join] on strings. *)
Definition join (sep : string) (l : list string) : string := String.concat sep l.

(** [String.prototype.repeat] *)
Fixpoint string_repeat (s : string) (count : nat) : string :=
  match count with
  | O => ""
  | S count' => s ++ string_repeat s count'
  end.

(** A number inside a template literal: its decimal digits. *)
Definition number_to_string (n : nat) : string :=
  NilEmpty.string_of_uint (Nat.to_uint n).

(** The line feed, ['\n']. *)
Definition nl : string := String "010"%char EmptyString.

Definition errorMessages (errors : list ErrorEntry) : string :=
  join nl (array_map
             (fun entry index => "  " ++ number_to_string (index + 1) ++ ". " ++ message entry)
             errors).

Definition finalMessage (errors : list ErrorEntry) : string :=
  join nl [ "";
            string_repeat "=" 80;
            "SOFT ASSERTION FAILURES (" ++ number_to_string (List.length errors) ++ " failed):";
            string_repeat "=" 80;
            errorMessages errors;
            string_repeat "=" 80;
            "" ].

Definition reportSoftAssertionFailures : Exec unit :=
  errors <- gets softAssertionErrors ;;
  if (0 <? List.length errors)%nat then
    let final := finalMessage errors in
    modify (set_softAssertionErrors []) ;;
    throw (mkError "SoftAssertionError" final (new_error_stack engine final))
  else
    ret tt.

(** ** Test Registration Adapter (lines 104-192) *)

(** What a test body does, as far as the shim can tell: it issues checks
    through the engine's [assert] slot (looked up when the check runs), and it
    may fail for a reason that is not a check. *)
Inductive Action : Type :=
| Assert (this : Value) (args : list Value)
| Fail (err : JsError).

(** Actions run in order and the first one that throws ends the run. *)
Fixpoint run_actions (fuel : nat) (actions : list Action) : Exec unit :=
  match actions with
  | [] => ret tt
  | Assert this args :: rest =>
      slot <- gets chai_assert ;;
      call fuel slot this args ;;
      run_actions fuel rest
  | Fail err :: _ => throw err
  end.

(** A test body [fn]: what runs inside [fn.call(this)], whether the value it
    returns has a [then] method, and what runs afterwards: the work behind the
    returned awaitable, or the commands the body queued on the [cy] chain. *)
Record TestBody : Type := mkBody {
  sync_actions : list Action;
  returns_thenable : bool;
  deferred_actions : list Action
}.

(** [p.then(onFulfilled, onRejected)], and equally the shape of
    [try { m; return later } catch (err) { ... }] where [later] is scheduled
    work that runs outside the [try]. *)
Definition settle {A B} (m : Exec A) (onFulfilled : A -> Exec B)
           (onRejected : JsError -> Exec B) : Exec B :=
  fun st =>
    match m st with
    | None => None
    | Some (Returned v, st') => onFulfilled v st'
    | Some (Thrown e, st') => onRejected e st'
    end.

(** The callback handed to [it], lines 105-147.  A failing queued command stops
    the [cy] chain, so the step appended by [cy.wrap(null).then] runs only when
    every queued action has run. *)
Definition soft_it (fuel : nat) (fn : TestBody) : Exec unit :=
  modify (set_isInSoftTest true) ;;
  modify (set_softAssertionErrors []) ;;
  modify setupSoftAssertions ;;
  settle (run_actions fuel (sync_actions fn))
    (fun _ =>
       if returns_thenable fn then
         settle (run_actions fuel (deferred_actions fn))
           (fun _ =>
              modify (set_isInSoftTest false) ;;
              reportSoftAssertionFailures)
           (fun err =>
              modify (set_isInSoftTest false) ;;
              modify restoreAssertions ;;
              throw err)
       else
         run_actions fuel (deferred_actions fn) ;;
         modify (set_isInSoftTest false) ;;
         reportSoftAssertionFailures)
    (fun err =>
       modify (set_isInSoftTest false) ;;
       modify restoreAssertions ;;
       throw err).

(** The callback handed to [it.only], lines 154-191: the same text again. *)
Definition soft_it_only (fuel : nat) (fn : TestBody) : Exec unit :=
  modify (set_isInSoftTest true) ;;
  modify (set_softAssertionErrors []) ;;
  modify setupSoftAssertions ;;
  settle (run_actions fuel (sync_actions fn))
    (fun _ =>
       if returns_thenable fn then
         settle (run_actions fuel (deferred_actions fn))
           (fun _ =>
              modify (set_isInSoftTest false) ;;
              reportSoftAssertionFailures)
           (fun err =>
              modify (set_isInSoftTest false) ;;
              modify restoreAssertions ;;
              throw err)
       else
         run_actions fuel (deferred_actions fn) ;;
         modify (set_isInSoftTest false) ;;
         reportSoftAssertionFailures)
    (fun err =>
       modify (set_isInSoftTest false) ;;
       modify restoreAssertions ;;
       throw err).

(** The state in which the test body starts: lines 107-109. *)
Definition body_start (st : State) : State :=
  setupSoftAssertions (set_softAssertionErrors [] (set_isInSoftTest true st)).

(** A test registered with the runner's own [it]: the body's actions and
    nothing else. *)
Definition regular_it (fuel : nat) (actions : list Action) : Exec unit :=
  run_actions fuel actions.


(** ** The report format in the specification's words *)

(** A line of 80 ['='] characters. *)
Definition banner_line : string :=
  "================================================================================".

(** The line ['  i. m'] for the [i]-th message, counted from 1. *)
Definition numbered_line (im : nat * string) : string :=
  "  " ++ number_to_string (fst im) ++ ". " ++ snd im.

(** Empty line, banner, header, banner, the numbered lines, banner, empty line,
    joined by newlines. *)
Definition spec_composite_message (messages : list string) : string :=
  let opening :=
    [ "";
      banner_line;
      "SOFT ASSERTION FAILURES (" ++ number_to_string (List.length messages) ++ " failed):";
      banner_line ] in
  let numbered :=
    map numbered_line (combine (seq 1 (List.length messages)) messages) in
  let closing := [ banner_line; "" ] in
  join nl (List.app opening (List.app numbered closing)).

(** ** Invariant of the interceptor *)

Definition is_native (r : Routine) : bool :=
  match r with
  | Native _ => true
  | Wrapper => false
  end.

(** The captured original, when there is one, is not the wrapper, and the
    engine's slot then holds the wrapper or that original; before the first
    install the engine still has a routine of its own. *)
Definition well_installed (st : State) : Prop :=
  match originalAssert st with
  | Some f =>
      is_native f = true /\ (chai_assert st = Wrapper \/ chai_assert st = f)
  | None => is_native (chai_assert st) = true
  end.

(** A computation that never reassigns a captured original. *)
Definition keeps_original {A} (m : Exec A) : Prop :=
  forall st o st',
    m st = Some (o, st') ->
    (forall f, originalAssert st = Some f -> originalAssert st' = Some f) /\
    (well_installed st -> well_installed st').

(** ** Derived views used by the statements *)

(** A computation that leaves everything but the buffer alone. *)
Definition buffer_only {A} (m : Exec A) : Prop :=
  forall st o st',
    m st = Some (o, st') ->
    originalAssert st' = originalAssert st /\
    chai_assert st' = chai_assert st /\
    isInSoftTest st' = isInSoftTest st.

(** What the callback of lines 105-147 comes to, path by path. *)
Definition adapter_paths (fuel : nat) (fn : TestBody) (st : State)
  : option (Outcome unit * State) :=
  match run_actions fuel (sync_actions fn) (body_start st) with
  | None => None
  | Some (Thrown err, st1) =>
      Some (Thrown err, restoreAssertions (set_isInSoftTest false st1))
  | Some (Returned _, st1) =>
      match run_actions fuel (deferred_actions fn) st1 with
      | None => None
      | Some (Thrown err, st2) =>
          if returns_thenable fn
          then Some (Thrown err, restoreAssertions (set_isInSoftTest false st2))
          else Some (Thrown err, st2)
      | Some (Returned _, st2) =>
          reportSoftAssertionFailures (set_isInSoftTest false st2)
      end
  end.

(** A test on the engine's own routine [body]: checks run in order and the
    first failure ends the test. *)
Fixpoint first_failure (body : Value -> list Value -> Outcome Value)
         (actions : list Action) : Outcome unit :=
  match actions with
  | [] => Returned tt
  | Assert this args :: rest =>
      match body this args with
      | Returned _ => first_failure body rest
      | Thrown e => Thrown e
      end
  | Fail err :: _ => Thrown err
  end.

(** The record the wrapper pushes for a caught failure. *)
Definition entry_of (error : JsError) : ErrorEntry :=
  mkEntry (err_message error) (err_stack error).

(** The routine the wrapper delegates to once installed: the captured original,
    or before the first install the routine the engine still has. *)
Definition engine_routine (st : State) : Routine :=
  match originalAssert st with
  | Some f => f
  | None => chai_assert st
  end.

(** A check: the receiver and arguments of one call of the [assert] slot. *)
Definition Check : Type := (Value * list Value)%type.

Definition as_assert (c : Check) : Action := Assert (fst c) (snd c).

(** The records a run of checks leaves in soft mode over the routine [body]:
    one per failing check, in the order the checks ran. *)
Fixpoint captured (body : Value -> list Value -> Outcome Value)
         (checks : list Check) : list ErrorEntry :=
  match checks with
  | [] => []
  | c :: rest =>
      match body (fst c) (snd c) with
      | Thrown e => entry_of e :: captured body rest
      | Returned _ => captured body rest
      end
  end.

(** The report of the scenario with failures "A" and "C". *)
Definition scenario_message : string :=
  join nl [ ""; banner_line; "SOFT ASSERTION FAILURES (2 failed):"; banner_line;
            "  1. A"; "  2. C"; banner_line; "" ].

(** ** Test runs *)

(** What a spec file can make the shim do: run an aggregating test of either
    variant, or a regular test over whatever sits in the engine's slot. *)
Inductive TestRun : Type :=
| RunSoftIt (fn : TestBody)
| RunSoftItOnly (fn : TestBody)
| RunIt (actions : list Action).

Definition run_test (fuel : nat) (t : TestRun) : Exec unit :=
  match t with
  | RunSoftIt fn => soft_it fuel fn
  | RunSoftItOnly fn => soft_it_only fuel fn
  | RunIt actions => regular_it fuel actions
  end.

(** The states between tests, from the module as loaded over the engine
    routine [body]. *)
Inductive reachable (body : Value -> list Value -> Outcome Value) : State -> Prop :=
| reach_loaded : reachable body (initial_state (Native body))
| reach_test st fuel t o st' :
    reachable body st ->
    run_test fuel t st = Some (o, st') ->
    reachable body st'.

(** ** Concrete routines and bodies used to exercise the statements *)

Definition sample_engine : Engine :=
  mkEngine (fun _ => None)
           (mkError "TypeError" "Cannot read properties of null (reading 'apply')" None).

(** An engine routine in the manner of chai's [assert(expr, msg, ...)]: a false
    first argument raises an [AssertionError] carrying the second. *)
Definition chai_like (this : Value) (args : list Value) : Outcome Value :=
  match args with
  | VBool false :: VStr msg :: _ =>
      Thrown (mkError "AssertionError" msg (Some ("AssertionError: " ++ msg)))
  | _ => Returned (VNum 7)
  end.

Definition failing_check (msg : string) : Action :=
  Assert (VObj 1) [VBool false; VStr msg].

Definition passing_check : Action :=
  Assert (VObj 1) [VBool true; VStr "ok"].

Definition hard_error : JsError :=
  mkError "CypressError" "cy.visit() failed" None.

Definition installed_state (soft : bool) : State :=
  mkState [] soft (Some (Native chai_like)) Wrapper.

Definition assertion_error (msg : string) : JsError :=
  mkError "AssertionError" msg (Some ("AssertionError: " ++ msg)).

Definition check_A : Check := (VObj 1, [VBool false; VStr "A"]).
Definition check_ok : Check := (VObj 1, [VBool true; VStr "B"]).
Definition check_C : Check := (VObj 1, [VBool false; VStr "C"]).

(** A buffer holding the failures "A" and "C". *)
Definition two_failures_state : State :=
  mkState [entry_of (assertion_error "A"); entry_of (assertion_error "C")]
          false (Some (Native chai_like)) Wrapper.

(** A body whose first check fails softly and which then throws. *)
Definition sync_abort_body : TestBody :=
  mkBody [failing_check "A"; Fail hard_error] false [].

(** A body whose check fails softly and whose awaitable then rejects. *)
Definition rejecting_body : TestBody :=
  mkBody [failing_check "A"] true [Fail hard_error].

(** The state both bodies above end in: flag off, original restored, the record
    of "A" still in the buffer. *)
Definition aborted_state : State :=
  mkState [entry_of (assertion_error "A")] false
          (Some (Native chai_like)) (Native chai_like).

(** A body whose check fails softly and whose queued command then fails. *)
Definition chain_abort_body : TestBody :=
  mkBody [failing_check "A"] false [Fail hard_error].

(** The state that body ends in: the appended step never ran. *)
Definition chain_aborted_state : State :=
  mkState [entry_of (assertion_error "A")] true (Some (Native chai_like)) Wrapper.

(** ** Equations of the interceptor *)

Lemma call_native_eq fuel body this args st :
  call (S fuel) (Native body) this args st = Some (body this args, st).
Proof. reflexivity. Qed.

Lemma apply_original_native fuel body this args st :
  originalAssert st = Some (Native body) ->
  apply_original (S fuel) this args st = Some (body this args, st).
Proof.
  intros Horig. unfold apply_original, bind, gets.
  rewrite Horig. reflexivity.
Qed.

Lemma apply_original_null fuel this args st :
  originalAssert st = None ->
  apply_original fuel this args st = Some (Thrown (null_apply_error engine), st).
Proof.
  intros Horig. unfold apply_original, bind, gets.
  rewrite Horig. reflexivity.
Qed.

(** The wrapper in terms of the delegated call: both branches of lines 29-44. *)
Lemma call_wrapper_eq fuel this args st :
  call (S fuel) Wrapper this args st =
  match apply_original fuel this args st with
  | None => None
  | Some (Returned _, st') => Some (Returned VUndefined, st')
  | Some (Thrown e, st') =>
      if isInSoftTest st then
        Some (Returned VUndefined,
              set_softAssertionErrors
                (softAssertionErrors st' ++ [mkEntry (err_message e) (err_stack e)])%list
                st')
      else Some (Thrown e, st')
  end.
Proof.
  change (call (S fuel) Wrapper this args st) with
    ((soft <- gets isInSoftTest ;;
      if soft then
        try_catch (apply_original fuel this args ;; ret tt)
                  (fun error => push_entry error) ;;
        ret VUndefined
      else
        apply_original fuel this args ;;
        ret VUndefined) st).
  unfold bind at 1. unfold gets at 1.
  destruct (isInSoftTest st); unfold bind, try_catch, ret, push_entry, modify;
    destruct (apply_original fuel this args st) as [[[v|e] st']|]; reflexivity.
Qed.


(** ** Frame: what a check can touch *)

Lemma buffer_only_bind {A B} (m : Exec A) (k : A -> Exec B) :
  buffer_only m -> (forall v, buffer_only (k v)) -> buffer_only (bind m k).
Proof.
  intros Hm Hk st o st' Hrun. unfold bind in Hrun.
  destruct (m st) as [[[v|e] st1]|] eqn:Em; try discriminate.
  - destruct (Hm _ _ _ Em) as (H1 & H2 & H3).
    destruct (Hk v _ _ _ Hrun) as (K1 & K2 & K3).
    repeat split; congruence.
  - inversion Hrun; subst. exact (Hm _ _ _ Em).
Qed.

Lemma buffer_only_call fuel :
  forall r this args, buffer_only (call fuel r this args).
Proof.
  induction fuel as [|fuel IH]; intros r this args st o st' Hrun.
  - discriminate.
  - destruct r as [body|].
    + rewrite call_native_eq in Hrun. inversion Hrun; subst. auto.
    + rewrite call_wrapper_eq in Hrun.
      assert (Hdel : forall o1 st1, apply_original fuel this args st = Some (o1, st1) ->
                originalAssert st1 = originalAssert st /\
                chai_assert st1 = chai_assert st /\
                isInSoftTest st1 = isInSoftTest st).
      { intros o1 st1. unfold apply_original, bind, gets.
        destruct (originalAssert st) as [f|] eqn:Eo.
        - intros Hc. destruct (IH f this args st o1 st1 Hc) as (H1 & H2 & H3).
          repeat split; congruence.
        - unfold throw. intros Hc. inversion Hc; subst. auto. }
      destruct (apply_original fuel this args st) as [[[v|e] st1]|] eqn:Ea;
        try discriminate.
      * inversion Hrun; subst. eauto.
      * destruct (Hdel _ _ eq_refl) as (H1 & H2 & H3).
        destruct (isInSoftTest st); inversion Hrun; subst; simpl; auto.
Qed.

Lemma buffer_only_run_actions fuel actions :
  buffer_only (run_actions fuel actions).
Proof.
  induction actions as [|[this args|err] rest IH]; intros st o st' Hrun.
  - inversion Hrun; subst. auto.
  - simpl in Hrun. unfold bind at 1 in Hrun. unfold gets at 1 in Hrun.
    revert Hrun. apply buffer_only_bind.
    + apply buffer_only_call.
    + intros _. exact IH.
  - inversion Hrun; subst. auto.
Qed.

Lemma buffer_only_report : buffer_only reportSoftAssertionFailures.
Proof.
  intros st o st' Hrun. unfold reportSoftAssertionFailures, bind, gets in Hrun.
  destruct (0 <? List.length (softAssertionErrors st))%nat;
    inversion Hrun; subst; simpl; auto.
Qed.


(** ** The adapter by cases *)

Lemma soft_it_eq fuel fn st : soft_it fuel fn st = adapter_paths fuel fn st.
Proof.
  unfold soft_it, adapter_paths, body_start, bind, settle, modify, throw. simpl.
  destruct (run_actions fuel (sync_actions fn) _) as [[[[]|err] st1]|]; try reflexivity.
  destruct (returns_thenable fn);
    destruct (run_actions fuel (deferred_actions fn) st1) as [[[[]|err] st2]|];
    reflexivity.
Qed.

Lemma soft_it_only_eq fuel fn st : soft_it_only fuel fn st = adapter_paths fuel fn st.
Proof.
  unfold soft_it_only, adapter_paths, body_start, bind, settle, modify, throw. simpl.
  destruct (run_actions fuel (sync_actions fn) _) as [[[[]|err] st1]|]; try reflexivity.
  destruct (returns_thenable fn);
    destruct (run_actions fuel (deferred_actions fn) st1) as [[[[]|err] st2]|];
    reflexivity.
Qed.

(** ** The invariant is kept *)

Lemma well_installed_frame st st' :
  originalAssert st' = originalAssert st ->
  chai_assert st' = chai_assert st ->
  well_installed st -> well_installed st'.
Proof. unfold well_installed. intros -> ->. auto. Qed.

Lemma well_installed_initial body : well_installed (initial_state (Native body)).
Proof. reflexivity. Qed.

Lemma well_installed_setup st :
  well_installed st -> well_installed (setupSoftAssertions st).
Proof.
  unfold well_installed, setupSoftAssertions.
  destruct (originalAssert st) as [f|] eqn:Eo; simpl; rewrite ?Eo; intuition.
Qed.

Lemma well_installed_restore st :
  well_installed st -> well_installed (restoreAssertions st).
Proof.
  unfold well_installed, restoreAssertions.
  destruct (originalAssert st) as [f|] eqn:Eo; simpl; rewrite ?Eo; intuition.
Qed.

Lemma well_installed_body_start st :
  well_installed st -> well_installed (body_start st).
Proof. intros H. unfold body_start. apply well_installed_setup. exact H. Qed.

Lemma setup_captures_some st :
  exists f, originalAssert (setupSoftAssertions st) = Some f.
Proof.
  unfold setupSoftAssertions.
  destruct (originalAssert st) as [f|] eqn:Eo; simpl; rewrite ?Eo; eauto.
Qed.

Lemma setup_keeps_original st f :
  originalAssert st = Some f -> originalAssert (setupSoftAssertions st) = Some f.
Proof. unfold setupSoftAssertions. intros H. rewrite H. simpl. exact H. Qed.

Lemma restore_keeps_original st :
  originalAssert (restoreAssertions st) = originalAssert st.
Proof.
  unfold restoreAssertions. destruct (originalAssert st) eqn:Eo; simpl; auto.
Qed.

Lemma flag_keeps_original b st :
  originalAssert (set_isInSoftTest b st) = originalAssert st.
Proof. reflexivity. Qed.

Lemma restore_flag st :
  isInSoftTest (restoreAssertions st) = isInSoftTest st.
Proof.
  unfold restoreAssertions. destruct (originalAssert st); reflexivity.
Qed.

Lemma buffer_only_keeps {A} (m : Exec A) : buffer_only m -> keeps_original m.
Proof.
  intros Hm st o st' Hrun. destruct (Hm _ _ _ Hrun) as (H1 & H2 & _). split.
  - intros f Hf. congruence.
  - apply well_installed_frame; assumption.
Qed.

Lemma keeps_original_adapter fuel fn :
  keeps_original (adapter_paths fuel fn).
Proof.
  intros st o st' Hrun. unfold adapter_paths in Hrun.
  assert (Hstart : (forall f, originalAssert st = Some f ->
                      originalAssert (body_start st) = Some f) /\
                   (well_installed st -> well_installed (body_start st))).
  { split; [|apply well_installed_body_start].
    intros f Hf. unfold body_start. apply setup_keeps_original. exact Hf. }
  destruct Hstart as [Hs1 Hs2].
  destruct (run_actions fuel (sync_actions fn) (body_start st))
    as [[[[]|err] st1]|] eqn:Esync; try discriminate.
  - destruct (buffer_only_keeps _ (buffer_only_run_actions fuel (sync_actions fn))
                _ _ _ Esync) as [Ha1 Ha2].
    destruct (run_actions fuel (deferred_actions fn) st1)
      as [[[[]|err] st2]|] eqn:Edef; try discriminate.
    + destruct (buffer_only_keeps _ (buffer_only_run_actions fuel (deferred_actions fn))
                  _ _ _ Edef) as [Hb1 Hb2].
      destruct (buffer_only_keeps _ buffer_only_report _ _ _ Hrun) as [Hc1 Hc2].
      split; [intros f Hf; apply Hc1; simpl; auto | intros Hw; apply Hc2].
      apply (well_installed_frame st2); auto.
    + destruct (buffer_only_keeps _ (buffer_only_run_actions fuel (deferred_actions fn))
                  _ _ _ Edef) as [Hb1 Hb2].
      destruct (returns_thenable fn); inversion Hrun; subst.
      * split.
        -- intros f Hf. rewrite restore_keeps_original. simpl. auto.
        -- intros Hw. apply well_installed_restore.
           apply (well_installed_frame st2); auto.
      * split; auto.
  - inversion Hrun; subst.
    destruct (buffer_only_keeps _ (buffer_only_run_actions fuel (sync_actions fn))
                _ _ _ Esync) as [Ha1 Ha2].
    split.
    + intros f Hf. rewrite restore_keeps_original. simpl. auto.
    + intros Hw. apply well_installed_restore.
      apply (well_installed_frame st1); auto.
Qed.

(** ** Enough fuel: two levels of call are all a well-installed state needs *)

Lemma call_total fuel r this args st :
  well_installed st ->
  exists o st', call (S (S fuel)) r this args st = Some (o, st').
Proof.
  intros Hw. destruct r as [body|].
  - rewrite call_native_eq. eauto.
  - rewrite call_wrapper_eq. unfold well_installed in Hw.
    destruct (originalAssert st) as [f|] eqn:Eo.
    + destruct f as [body|]; [|destruct Hw; discriminate].
      rewrite (apply_original_native fuel body this args st Eo).
      destruct (body this args); [eauto|]. destruct (isInSoftTest st); eauto.
    + rewrite (apply_original_null (S fuel) this args st Eo).
      destruct (isInSoftTest st); eauto.
Qed.

Lemma run_actions_total fuel actions :
  forall st, well_installed st ->
  exists o st', run_actions (S (S fuel)) actions st = Some (o, st').
Proof.
  induction actions as [|[this args|err] rest IH]; intros st Hw.
  - simpl. unfold ret. eauto.
  - change (run_actions (S (S fuel)) (Assert this args :: rest) st) with
      ((slot <- gets chai_assert ;;
        call (S (S fuel)) slot this args ;;
        run_actions (S (S fuel)) rest) st).
    unfold bind, gets.
    destruct (call_total fuel (chai_assert st) this args st Hw) as (o & st1 & Ec).
    rewrite Ec. destruct o as [v|e]; [|eauto].
    apply IH. destruct (buffer_only_call _ _ _ _ _ _ _ Ec) as (H1 & H2 & _).
    apply (well_installed_frame st); auto.
  - simpl. unfold throw. eauto.
Qed.

Lemma report_total st :
  exists o st', reportSoftAssertionFailures st = Some (o, st').
Proof.
  unfold reportSoftAssertionFailures, bind, gets, modify, throw, ret.
  destruct (0 <? List.length (softAssertionErrors st))%nat; eauto.
Qed.

Lemma adapter_total fuel fn st :
  well_installed st ->
  exists o st', adapter_paths (S (S fuel)) fn st = Some (o, st').
Proof.
  intros Hw. unfold adapter_paths.
  destruct (run_actions_total fuel (sync_actions fn) _ (well_installed_body_start st Hw))
    as (o1 & st1 & E1).
  rewrite E1. destruct o1 as [[]|err]; [|eauto].
  assert (Hw1 : well_installed st1).
  { destruct (buffer_only_run_actions _ _ _ _ _ E1) as (H1 & H2 & _).
    apply (well_installed_frame (body_start st)); auto.
    apply well_installed_body_start; exact Hw. }
  destruct (run_actions_total fuel (deferred_actions fn) _ Hw1) as (o2 & st2 & E2).
  rewrite E2. destruct o2 as [[]|err].
  - apply report_total.
  - destruct (returns_thenable fn); eauto.
Qed.


(** ** The wrapper, call by call *)

(** With a captured engine routine the wrapper needs two levels of call and its
    result is decided by the mode flag and by what the routine does. *)
Lemma call_wrapper_native fuel body this args st :
  originalAssert st = Some (Native body) ->
  call (S (S fuel)) Wrapper this args st =
  match body this args with
  | Returned _ => Some (Returned VUndefined, st)
  | Thrown e =>
      if isInSoftTest st
      then Some (Returned VUndefined,
                 set_softAssertionErrors (softAssertionErrors st ++ [entry_of e])%list st)
      else Some (Thrown e, st)
  end.
Proof.
  intros Horig. rewrite call_wrapper_eq.
  rewrite (apply_original_native fuel body this args st Horig).
  destruct (body this args); reflexivity.
Qed.

(** C1. While the mode flag is true, a failure raised by the delegated call to
    the original routine is turned into a record of its message and optional
    stack, appended at the end of the buffer, and the wrapper returns normally;
    when the delegated call succeeds the state, and so the buffer, is as it
    was. *)
Theorem wrapper_soft_mode_records fuel body this args st :
  isInSoftTest st = true ->
  originalAssert st = Some (Native body) ->
  call (S (S fuel)) Wrapper this args st =
  Some (Returned VUndefined,
        match body this args with
        | Thrown error =>
            set_softAssertionErrors
              (softAssertionErrors st
                 ++ [mkEntry (err_message error) (err_stack error)])%list st
        | Returned _ => st
        end).
Proof.
  intros Hsoft Horig. rewrite (call_wrapper_native fuel body this args st Horig).
  rewrite Hsoft. destruct (body this args); reflexivity.
Qed.

(** The same in soft mode whatever [originalAssert] holds: the outcome of the
    delegated call decides, and a failure of the delegation itself (a missing
    original) is recorded like any other. *)
Lemma wrapper_soft_mode_general fuel this args st :
  isInSoftTest st = true ->
  call (S fuel) Wrapper this args st =
  match apply_original fuel this args st with
  | None => None
  | Some (Returned _, st') => Some (Returned VUndefined, st')
  | Some (Thrown e, st') =>
      Some (Returned VUndefined,
            set_softAssertionErrors (softAssertionErrors st' ++ [entry_of e])%list st')
  end.
Proof. intros Hsoft. rewrite call_wrapper_eq, Hsoft. reflexivity. Qed.

(** A regular test with the flag off, over the wrapper or over the restored
    original: the engine's own first-failure semantics, state untouched. *)
Lemma regular_it_plain fuel body actions st :
  isInSoftTest st = false ->
  originalAssert st = Some (Native body) ->
  chai_assert st = Wrapper \/ chai_assert st = Native body ->
  regular_it (S (S fuel)) actions st = Some (first_failure body actions, st).
Proof.
  intros Hoff Horig Hslot. unfold regular_it.
  induction actions as [|[this args|err] rest IH]; try reflexivity.
  change (run_actions (S (S fuel)) (Assert this args :: rest) st) with
    ((slot <- gets chai_assert ;;
      call (S (S fuel)) slot this args ;;
      run_actions (S (S fuel)) rest) st).
  unfold bind, gets. simpl first_failure.
  destruct Hslot as [Hslot|Hslot]; rewrite Hslot.
  - rewrite (call_wrapper_native fuel body this args st Horig), Hoff.
    destruct (body this args); [exact IH | reflexivity].
  - rewrite call_native_eq.
    destruct (body this args); [exact IH | reflexivity].
Qed.

(** Every exit of the adapter that runs its own code turns the flag off; the
    flag stays on only when a queued command stops the chain before the
    appended step. *)
Lemma adapter_flag fuel fn st o st' :
  adapter_paths fuel fn st = Some (o, st') ->
  isInSoftTest st' = false \/
  (returns_thenable fn = false /\
   exists st1 err,
     run_actions fuel (sync_actions fn) (body_start st) = Some (Returned tt, st1) /\
     run_actions fuel (deferred_actions fn) st1 = Some (Thrown err, st') /\
     o = Thrown err).
Proof.
  unfold adapter_paths. intros Hrun.
  destruct (run_actions fuel (sync_actions fn) (body_start st))
    as [[[[]|err] st1]|] eqn:Esync; try discriminate.
  - destruct (run_actions fuel (deferred_actions fn) st1)
      as [[[[]|err] st2]|] eqn:Edef; try discriminate.
    + left. destruct (buffer_only_report _ _ _ Hrun) as (_ & _ & H). exact H.
    + destruct (returns_thenable fn); inversion Hrun; subst.
      * left. rewrite restore_flag. reflexivity.
      * right. split; [reflexivity|]. exists st1, err. auto.
  - inversion Hrun; subst. left.
    rewrite restore_flag. reflexivity.
Qed.

(** After the adapter ran, the captured original is the one the test body
    started with. *)
Lemma adapter_original fuel fn st o st' :
  adapter_paths fuel fn st = Some (o, st') ->
  originalAssert st' = originalAssert (body_start st).
Proof.
  unfold adapter_paths. intros Hrun.
  destruct (run_actions fuel (sync_actions fn) (body_start st))
    as [[[[]|err] st1]|] eqn:Esync; try discriminate.
  - destruct (buffer_only_run_actions _ _ _ _ _ Esync) as (Ha & _ & _).
    destruct (run_actions fuel (deferred_actions fn) st1)
      as [[[[]|err] st2]|] eqn:Edef; try discriminate;
      destruct (buffer_only_run_actions _ _ _ _ _ Edef) as (Hb & _ & _).
    + destruct (buffer_only_report _ _ _ Hrun) as (Hc & _ & _).
      rewrite Hc, flag_keeps_original. congruence.
    + destruct (returns_thenable fn); inversion Hrun; subst;
        rewrite ?restore_keeps_original, ?flag_keeps_original; congruence.
  - inversion Hrun; subst.
    destruct (buffer_only_run_actions _ _ _ _ _ Esync) as (Ha & _ & _).
    rewrite restore_keeps_original, flag_keeps_original. exact Ha.
Qed.

(** The wrapper with the flag off hands the call to the original routine with
    the same receiver and arguments and lets its failure through unchanged;
    and in a state left by an aggregating test in which the flag is off, a
    regular test stops at its first failure as on the engine's own routine. *)
Theorem wrapper_plain_mode_delegates :
  (forall fuel body this args st,
      isInSoftTest st = false ->
      originalAssert st = Some (Native body) ->
      call (S (S fuel)) Wrapper this args st =
      Some (match body this args with
            | Thrown e => Thrown e
            | Returned _ => Returned VUndefined
            end, st)) /\
  (forall fuel fn st o st',
      well_installed st ->
      soft_it (S (S fuel)) fn st = Some (o, st') ->
      isInSoftTest st' = false ->
      exists body,
        originalAssert st' = Some (Native body) /\
        forall actions,
          regular_it (S (S fuel)) actions st' = Some (first_failure body actions, st')).
Proof.
  split.
  - intros fuel body this args st Hoff Horig.
    rewrite (call_wrapper_native fuel body this args st Horig), Hoff.
    destruct (body this args); reflexivity.
  - intros fuel fn st o st' Hw Hrun Hoff. rewrite soft_it_eq in Hrun.
    destruct (keeps_original_adapter _ _ _ _ _ Hrun) as [_ Hw'].
    specialize (Hw' Hw).
    destruct (setup_captures_some
                (set_softAssertionErrors [] (set_isInSoftTest true st))) as [f Hf].
    fold (body_start st) in Hf.
    rewrite <- (adapter_original _ _ _ _ _ Hrun) in Hf.
    unfold well_installed in Hw'. rewrite Hf in Hw'. destruct Hw' as [Hnat Hslot].
    destruct f as [body|]; [|discriminate].
    exists body. split; [exact Hf|].
    intros actions. apply regular_it_plain; assumption.
Qed.

(** C10, in the form the code satisfies. Whenever the wrapper returns it returns [undefined], and the
    value the original returned is dropped; it returns in every branch but one:
    with the flag off and the original failing the failure propagates and
    nothing is returned. *)
Theorem wrapper_result_is_undefined_or_failure fuel body this args st :
  originalAssert st = Some (Native body) ->
  exists o st',
    call (S (S fuel)) Wrapper this args st = Some (o, st') /\
    match body this args, isInSoftTest st with
    | Thrown e, false => o = Thrown e
    | _, _ => o = Returned VUndefined
    end.
Proof.
  intros Horig. rewrite (call_wrapper_native fuel body this args st Horig).
  destruct (body this args) as [v|e].
  - exists (Returned VUndefined), st. destruct (isInSoftTest st); auto.
  - destruct (isInSoftTest st); eauto.
Qed.


(** ** The reporter *)

Lemma string_append_assoc (a b c : string) : (a ++ b) ++ c = a ++ (b ++ c).
Proof. induction a as [|ch a IH]; simpl; [|rewrite IH]; reflexivity. Qed.

Lemma join_cons sep x y rest :
  join sep (x :: y :: rest) = x ++ sep ++ join sep (y :: rest).
Proof. reflexivity. Qed.

Lemma join_app sep l r :
  l <> [] -> r <> [] ->
  join sep (List.app l r) = join sep l ++ sep ++ join sep r.
Proof.
  intros Hl Hr. induction l as [|x l IH]; [contradiction|].
  destruct l as [|y l].
  - simpl List.app. destruct r as [|z r]; [contradiction|]. reflexivity.
  - change (List.app (x :: y :: l) r) with (x :: List.app (y :: l) r).
    destruct (List.app (y :: l) r) as [|z t] eqn:E; [discriminate|].
    rewrite join_cons, IH by discriminate.
    rewrite join_cons. rewrite !string_append_assoc. reflexivity.
Qed.

Lemma string_repeat_banner : string_repeat "=" 80 = banner_line.
Proof. vm_compute. reflexivity. Qed.

Lemma length_map_from {A B} (f : A -> nat -> B) l :
  forall k, List.length (map_from f k l) = List.length l.
Proof. induction l as [|x l IH]; intros k; simpl; [|rewrite IH]; reflexivity. Qed.

Lemma nth_error_map_from {A B} (f : A -> nat -> B) l :
  forall k i x,
    nth_error l i = Some x -> nth_error (map_from f k l) i = Some (f x (k + i)%nat).
Proof.
  induction l as [|y l IH]; intros k i x Hnth.
  - destruct i; discriminate.
  - destruct i as [|i]; simpl in *.
    + inversion Hnth; subst. rewrite Nat.add_0_r. reflexivity.
    + rewrite (IH (S k) i x Hnth). f_equal. f_equal. lia.
Qed.

(** The code's numbering, [index + 1] from [map], is the specification's
    numbering from 1. *)
Lemma map_from_numbered errors :
  forall k,
    map_from (fun entry index =>
                "  " ++ number_to_string (index + 1) ++ ". " ++ message entry)
             k errors
    = map numbered_line
          (combine (seq (k + 1) (List.length errors)) (map message errors)).
Proof.
  induction errors as [|entry errors IH]; intros k; [reflexivity|].
  cbn [map_from]. rewrite (IH (S k)). reflexivity.
Qed.

(** The message the reporter builds, with the numbered lines spliced in the
    place of the inner [join]. *)
Lemma finalMessage_lines errors :
  errors <> [] ->
  finalMessage errors =
  join nl (List.app
             [ ""; banner_line;
               "SOFT ASSERTION FAILURES (" ++ number_to_string (List.length errors)
                 ++ " failed):";
               banner_line ]
             (List.app
                (array_map (fun entry index =>
                              "  " ++ number_to_string (index + 1) ++ ". "
                                ++ message entry) errors)
                [ banner_line; "" ])).
Proof.
  intros Hne. unfold finalMessage, errorMessages. rewrite string_repeat_banner.
  set (lines := array_map _ errors).
  assert (Hlines : lines <> []).
  { destruct errors; [contradiction|]. discriminate. }
  assert (Htail : List.app lines [banner_line; ""] <> []).
  { destruct lines; discriminate. }
  rewrite (join_app nl [ ""; banner_line; _; banner_line ] (List.app lines _));
    [|discriminate|exact Htail].
  rewrite (join_app nl lines [banner_line; ""]); [|exact Hlines|discriminate].
  rewrite !join_cons. rewrite !string_append_assoc. reflexivity.
Qed.

Lemma report_empty st :
  softAssertionErrors st = [] ->
  reportSoftAssertionFailures st = Some (Returned tt, st).
Proof.
  intros Hbuf. unfold reportSoftAssertionFailures, bind, gets.
  rewrite Hbuf. reflexivity.
Qed.

Lemma report_nonempty st :
  softAssertionErrors st <> [] ->
  reportSoftAssertionFailures st =
  Some (Thrown (mkError "SoftAssertionError"
                        (finalMessage (softAssertionErrors st))
                        (new_error_stack engine (finalMessage (softAssertionErrors st)))),
        set_softAssertionErrors [] st).
Proof.
  intros Hbuf. unfold reportSoftAssertionFailures, bind, gets.
  destruct (softAssertionErrors st) as [|entry rest] eqn:E; [contradiction|].
  reflexivity.
Qed.


(** C2. The reporter raises the composite failure exactly when the buffer holds
    N > 0 records; with N = 0 it returns with the state untouched, which ends the
    test callback normally; with N > 0 the message carries, between the opening
    and the closing lines, exactly N entries, the i-th being the i-th record's
    message under the number i, in the order of the buffer. *)
Theorem report_raises_iff_failures st :
  let errors := softAssertionErrors st in
  let N := List.length errors in
  ((exists e st', reportSoftAssertionFailures st = Some (Thrown e, st')) <-> (0 < N)%nat) /\
  (N = 0%nat -> reportSoftAssertionFailures st = Some (Returned tt, st)) /\
  ((0 < N)%nat ->
   exists e entries,
     reportSoftAssertionFailures st = Some (Thrown e, set_softAssertionErrors [] st) /\
     err_message e =
       join nl (List.app
                  [ ""; banner_line;
                    "SOFT ASSERTION FAILURES (" ++ number_to_string N ++ " failed):";
                    banner_line ]
                  (List.app entries [ banner_line; "" ])) /\
     List.length entries = N /\
     forall i entry,
       nth_error errors i = Some entry ->
       nth_error entries i =
         Some ("  " ++ number_to_string (i + 1) ++ ". " ++ message entry)).
Proof.
  intros errors N. subst N errors.
  destruct (softAssertionErrors st) as [|entry rest] eqn:Ebuf.
  - rewrite (report_empty st Ebuf). simpl. split; [|split].
    + split; [intros (e & st' & H); discriminate | lia].
    + reflexivity.
    + lia.
  - assert (Hne : softAssertionErrors st <> []) by (rewrite Ebuf; discriminate).
    rewrite (report_nonempty st Hne). split; [|split].
    + split; [simpl; lia | eauto].
    + simpl. discriminate.
    + intros _. eexists. eexists. split; [reflexivity|].
      rewrite Ebuf. split; [|split].
      * cbn [err_message]. apply finalMessage_lines. discriminate.
      * apply length_map_from.
      * intros i x Hnth. unfold array_map.
        rewrite (nth_error_map_from _ _ 0 i x Hnth). reflexivity.
Qed.

(** C3. For a non-empty buffer the message of the failure the reporter raises is
    the specification's text: empty line, 80 '=', the header with the count,
    80 '=', the lines '  i. mi' from 1, 80 '=', empty line, joined by line
    feeds. *)
Theorem composite_message_format st :
  softAssertionErrors st <> [] ->
  exists e,
    reportSoftAssertionFailures st = Some (Thrown e, set_softAssertionErrors [] st) /\
    err_message e = spec_composite_message (map message (softAssertionErrors st)).
Proof.
  intros Hne. rewrite (report_nonempty st Hne). eexists. split; [reflexivity|].
  cbn [err_message]. rewrite (finalMessage_lines _ Hne).
  unfold spec_composite_message, array_map.
  rewrite (map_from_numbered (softAssertionErrors st) 0), length_map.
  reflexivity.
Qed.


(** ** A whole aggregating test made of checks *)

Lemma body_start_eq st :
  body_start st = mkState [] true (Some (engine_routine st)) Wrapper.
Proof.
  unfold body_start, setupSoftAssertions, engine_routine.
  cbn [originalAssert set_softAssertionErrors set_isInSoftTest].
  destruct (originalAssert st) as [f|] eqn:Eo;
    unfold set_chai_assert, set_originalAssert; cbn; rewrite ?Eo; reflexivity.
Qed.

(** In soft mode every check runs, none throws, and the failing ones are
    recorded in order. *)
Lemma run_checks_soft fuel body checks :
  forall st,
    isInSoftTest st = true ->
    originalAssert st = Some (Native body) ->
    chai_assert st = Wrapper ->
    run_actions (S (S fuel)) (map as_assert checks) st =
    Some (Returned tt,
          set_softAssertionErrors
            (List.app (softAssertionErrors st) (captured body checks)) st).
Proof.
  induction checks as [|[this args] rest IH]; intros st Hsoft Horig Hslot.
  - simpl. rewrite app_nil_r. destruct st; reflexivity.
  - change (run_actions (S (S fuel)) (map as_assert ((this, args) :: rest)) st) with
      ((slot <- gets chai_assert ;;
        call (S (S fuel)) slot this args ;;
        run_actions (S (S fuel)) (map as_assert rest)) st).
    unfold bind, gets. rewrite Hslot.
    rewrite (call_wrapper_native fuel body this args st Horig), Hsoft.
    cbn [captured fst snd].
    destruct (body this args) as [v|e].
    + apply IH; assumption.
    + rewrite IH by assumption. cbn [softAssertionErrors set_softAssertionErrors].
      rewrite <- app_assoc. reflexivity.
Qed.

Lemma captured_app body cs1 cs2 :
  captured body (List.app cs1 cs2) = List.app (captured body cs1) (captured body cs2).
Proof.
  induction cs1 as [|c cs1 IH]; [reflexivity|].
  cbn [List.app captured]. destruct (body (fst c) (snd c)); [exact IH|].
  cbn [List.app]. rewrite IH. reflexivity.
Qed.

(** An aggregating test whose body only issues checks, before or after it
    returns: the reporter runs on exactly the failures of those checks. *)
Lemma soft_it_checks fuel body thenable cs1 cs2 st :
  engine_routine st = Native body ->
  soft_it (S (S fuel)) (mkBody (map as_assert cs1) thenable (map as_assert cs2)) st =
  reportSoftAssertionFailures
    (mkState (captured body (List.app cs1 cs2)) false (Some (Native body)) Wrapper).
Proof.
  intros Heng. rewrite soft_it_eq. unfold adapter_paths.
  rewrite body_start_eq, Heng. cbn [sync_actions deferred_actions returns_thenable].
  rewrite (run_checks_soft fuel body cs1) by reflexivity.
  rewrite (run_checks_soft fuel body cs2) by reflexivity.
  cbn [softAssertionErrors set_softAssertionErrors set_isInSoftTest isInSoftTest
       originalAssert chai_assert List.app].
  rewrite captured_app. reflexivity.
Qed.

(** C8. Three checks of which the first fails with "A", the second passes and
    the third fails with "C": the test fails with the report that lists
    '  1. A' and then '  2. C', wherever the body returns between the checks and
    whether or not it returns an awaitable. *)
Theorem numbering_counts_failures_only
        fuel body st thenable (c1 c2 c3 : Check) cs1 cs2 eA eC v :
  engine_routine st = Native body ->
  body (fst c1) (snd c1) = Thrown eA -> err_message eA = "A" ->
  body (fst c2) (snd c2) = Returned v ->
  body (fst c3) (snd c3) = Thrown eC -> err_message eC = "C" ->
  List.app cs1 cs2 = [c1; c2; c3] ->
  exists e st',
    soft_it (S (S fuel)) (mkBody (map as_assert cs1) thenable (map as_assert cs2)) st
      = Some (Thrown e, st') /\
    err_message e = scenario_message /\
    softAssertionErrors st' = [].
Proof.
  intros Heng H1 HA H2 H3 HC Hsplit.
  rewrite (soft_it_checks fuel body thenable cs1 cs2 st Heng), Hsplit.
  cbn [captured]. rewrite H1, H2, H3.
  rewrite report_nonempty by (cbn [softAssertionErrors]; discriminate).
  eexists. eexists. split; [reflexivity|]. split; [|reflexivity].
  cbn [err_message softAssertionErrors]. unfold finalMessage, errorMessages, array_map.
  cbn [map_from message entry_of List.length]. rewrite HA, HC.
  vm_compute. reflexivity.
Qed.


(** ** The adapter's exits *)

Lemma restore_slot st f :
  originalAssert st = Some f -> chai_assert (restoreAssertions st) = f.
Proof. unfold restoreAssertions. intros ->. reflexivity. Qed.

Lemma restore_buffer st :
  softAssertionErrors (restoreAssertions st) = softAssertionErrors st.
Proof. unfold restoreAssertions. destruct (originalAssert st); reflexivity. Qed.

Lemma body_start_original st :
  originalAssert (body_start st) = Some (engine_routine st).
Proof. rewrite body_start_eq. reflexivity. Qed.

(** The state a handler of lines 126-131 or 139-143 leaves, given the state
    [st1] in which the failure surfaced. *)
Lemma handler_state fuel actions st st0 st1 o :
  originalAssert st0 = Some (engine_routine st) ->
  run_actions fuel actions st0 = Some (o, st1) ->
  let st' := restoreAssertions (set_isInSoftTest false st1) in
  isInSoftTest st' = false /\
  chai_assert st' = engine_routine st /\
  originalAssert st' = Some (engine_routine st) /\
  softAssertionErrors st' = softAssertionErrors st1.
Proof.
  intros Horig Hrun st'. subst st'.
  destruct (buffer_only_run_actions _ _ _ _ _ Hrun) as (H1 & _ & _).
  assert (Ho : originalAssert (set_isInSoftTest false st1) = Some (engine_routine st)).
  { rewrite flag_keeps_original. congruence. }
  repeat split.
  - rewrite restore_flag. reflexivity.
  - apply restore_slot. exact Ho.
  - rewrite restore_keeps_original. exact Ho.
  - rewrite restore_buffer. reflexivity.
Qed.

(** C6. When the test body throws synchronously the adapter turns the mode flag
    off, puts the captured original routine back into the engine's slot, and the
    test fails with the very exception the body threw. *)
Theorem sync_throw_restores fuel fn st err st1 :
  run_actions fuel (sync_actions fn) (body_start st) = Some (Thrown err, st1) ->
  exists st',
    soft_it fuel fn st = Some (Thrown err, st') /\
    isInSoftTest st' = false /\
    chai_assert st' = engine_routine st /\
    originalAssert st' = Some (engine_routine st).
Proof.
  intros Hsync. rewrite soft_it_eq. unfold adapter_paths. rewrite Hsync.
  eexists. split; [reflexivity|].
  destruct (handler_state fuel _ st _ _ _ (body_start_original st) Hsync)
    as (H1 & H2 & H3 & _).
  auto.
Qed.

(** C5, in the form the code satisfies. When the awaitable returned by the body rejects, the mode flag
    is turned off, the captured original routine is put back into the engine's
    slot (the interception is uninstalled), and the rejection is the test's
    failure, unchanged and without a report; so for [soft_it] and for
    [soft_it.only]. *)
Theorem rejection_restores fuel fn st st1 st2 err :
  returns_thenable fn = true ->
  run_actions fuel (sync_actions fn) (body_start st) = Some (Returned tt, st1) ->
  run_actions fuel (deferred_actions fn) st1 = Some (Thrown err, st2) ->
  exists st',
    soft_it fuel fn st = Some (Thrown err, st') /\
    soft_it_only fuel fn st = Some (Thrown err, st') /\
    isInSoftTest st' = false /\
    chai_assert st' = engine_routine st /\
    originalAssert st' = Some (engine_routine st).
Proof.
  intros Hthen Hsync Hdef. rewrite soft_it_eq, soft_it_only_eq.
  unfold adapter_paths. rewrite Hsync, Hdef, Hthen.
  eexists. split; [reflexivity|]. split; [reflexivity|].
  assert (Ho1 : originalAssert st1 = Some (engine_routine st)).
  { destruct (buffer_only_run_actions _ _ _ _ _ Hsync) as (H & _ & _).
    rewrite H. apply body_start_original. }
  destruct (handler_state fuel _ st _ _ _ Ho1 Hdef) as (H1 & H2 & H3 & _).
  auto.
Qed.

(** C4, in the form the code satisfies. The buffer is empty in the state in which an aggregating
    test's body starts, and empty right after the reporter raised the composite
    failure; when a hard error aborts the test, in the body or behind it, the
    adapter leaves the buffer as it was when the error surfaced, so the records
    captured before the error are still in it. *)
Theorem buffer_lifecycle :
  (forall fuel fn st,
      softAssertionErrors (body_start st) = [] /\
      soft_it fuel fn st = adapter_paths fuel fn st) /\
  (forall st e st',
      reportSoftAssertionFailures st = Some (Thrown e, st') ->
      softAssertionErrors st' = []) /\
  (forall fuel fn st err st1,
      run_actions fuel (sync_actions fn) (body_start st) = Some (Thrown err, st1) ->
      exists st',
        soft_it fuel fn st = Some (Thrown err, st') /\
        softAssertionErrors st' = softAssertionErrors st1) /\
  (forall fuel fn st err st1 st2,
      run_actions fuel (sync_actions fn) (body_start st) = Some (Returned tt, st1) ->
      run_actions fuel (deferred_actions fn) st1 = Some (Thrown err, st2) ->
      exists st',
        soft_it fuel fn st = Some (Thrown err, st') /\
        softAssertionErrors st' = softAssertionErrors st2).
Proof.
  split; [|split; [|split]].
  - intros fuel fn st. split; [rewrite body_start_eq; reflexivity | apply soft_it_eq].
  - intros st e st' Hrun.
    unfold reportSoftAssertionFailures, bind, gets, modify, throw, ret in Hrun.
    destruct (0 <? List.length (softAssertionErrors st))%nat;
      inversion Hrun; subst; reflexivity.
  - intros fuel fn st err st1 Hsync. rewrite soft_it_eq. unfold adapter_paths.
    rewrite Hsync. eexists. split; [reflexivity|].
    rewrite restore_buffer. reflexivity.
  - intros fuel fn st err st1 st2 Hsync Hdef. rewrite soft_it_eq.
    unfold adapter_paths. rewrite Hsync, Hdef.
    destruct (returns_thenable fn); eexists; (split; [reflexivity|]).
    + rewrite restore_buffer. reflexivity.
    + reflexivity.
Qed.

(** ** Between tests *)

Lemma engine_routine_frame st st' :
  originalAssert st' = originalAssert st ->
  chai_assert st' = chai_assert st ->
  engine_routine st' = engine_routine st.
Proof. unfold engine_routine. intros -> ->. reflexivity. Qed.

(** Between tests the routine the wrapper delegates to is the engine's own, and
    the slot holds that routine or the wrapper over it. *)
Lemma reachable_invariant body st :
  reachable body st ->
  well_installed st /\ engine_routine st = Native body.
Proof.
  induction 1 as [|st fuel t o st' Hreach [Hw Heng] Hrun].
  - split; reflexivity.
  - destruct t as [fn|fn|actions]; cbn [run_test] in Hrun.
    + rewrite soft_it_eq in Hrun. split.
      * apply (keeps_original_adapter _ _ _ _ _ Hrun). exact Hw.
      * unfold engine_routine. rewrite (adapter_original _ _ _ _ _ Hrun).
        rewrite body_start_original. exact Heng.
    + rewrite soft_it_only_eq in Hrun. split.
      * apply (keeps_original_adapter _ _ _ _ _ Hrun). exact Hw.
      * unfold engine_routine. rewrite (adapter_original _ _ _ _ _ Hrun).
        rewrite body_start_original. exact Heng.
    + destruct (buffer_only_run_actions _ _ _ _ _ Hrun) as (H1 & H2 & _). split.
      * apply (well_installed_frame st); assumption.
      * rewrite (engine_routine_frame st st' H1 H2). exact Heng.
Qed.

(** C9. The first install captures the routine the engine has and only then puts
    the wrapper in its place; once captured, the original is never reassigned,
    by a further install or by anything else the shim runs, so installing twice
    is installing once and the captured routine is never the wrapper; uninstall
    puts the captured routine back as it is and does nothing when nothing was
    captured. *)
Theorem install_uninstall_contract :
  (forall st,
      originalAssert st = None ->
      setupSoftAssertions st =
      set_chai_assert Wrapper (set_originalAssert (Some (chai_assert st)) st)) /\
  (forall st f,
      originalAssert st = Some f ->
      setupSoftAssertions st = set_chai_assert Wrapper st) /\
  (forall st, setupSoftAssertions (setupSoftAssertions st) = setupSoftAssertions st) /\
  (forall st f,
      originalAssert st = Some f ->
      originalAssert (setupSoftAssertions st) = Some f /\
      originalAssert (restoreAssertions st) = Some f /\
      (forall fuel r this args o st',
          call fuel r this args st = Some (o, st') -> originalAssert st' = Some f) /\
      (forall o st',
          reportSoftAssertionFailures st = Some (o, st') -> originalAssert st' = Some f) /\
      (forall fuel actions o st',
          regular_it fuel actions st = Some (o, st') -> originalAssert st' = Some f) /\
      (forall fuel fn o st',
          soft_it fuel fn st = Some (o, st') -> originalAssert st' = Some f) /\
      (forall fuel fn o st',
          soft_it_only fuel fn st = Some (o, st') -> originalAssert st' = Some f)) /\
  (forall st,
      well_installed st ->
      well_installed (setupSoftAssertions st) /\
      originalAssert (setupSoftAssertions st) <> Some Wrapper) /\
  (forall body st,
      reachable body st ->
      originalAssert st = None \/ originalAssert st = Some (Native body)) /\
  (forall st f,
      originalAssert st = Some f ->
      restoreAssertions st = set_chai_assert f st) /\
  (forall st,
      originalAssert st = None ->
      restoreAssertions st = st).
Proof.
  split; [|split; [|split; [|split; [|split; [|split; [|split]]]]]].
  - intros st Hnone. unfold setupSoftAssertions. rewrite Hnone. reflexivity.
  - intros st f Hsome. unfold setupSoftAssertions. rewrite Hsome. reflexivity.
  - intros st. destruct (setup_captures_some st) as [f Hf].
    unfold setupSoftAssertions at 1. rewrite Hf.
    unfold setupSoftAssertions. destruct (originalAssert st); reflexivity.
  - intros st f Hsome. repeat apply conj.
    + apply setup_keeps_original. assumption.
    + rewrite restore_keeps_original. assumption.
    + intros fuel r this args o st' Hrun.
      destruct (buffer_only_call _ _ _ _ _ _ _ Hrun) as (Ho & _ & _). congruence.
    + intros o st' Hrun.
      destruct (buffer_only_report _ _ _ Hrun) as (Ho & _ & _). congruence.
    + intros fuel actions o st' Hrun.
      destruct (buffer_only_run_actions _ _ _ _ _ Hrun) as (Ho & _ & _). congruence.
    + intros fuel fn o st' Hrun. rewrite soft_it_eq in Hrun.
      apply (keeps_original_adapter _ _ _ _ _ Hrun). assumption.
    + intros fuel fn o st' Hrun. rewrite soft_it_only_eq in Hrun.
      apply (keeps_original_adapter _ _ _ _ _ Hrun). assumption.
  - intros st Hw. split.
    + apply well_installed_setup. assumption.
    + intros Hwrap.
      pose proof (well_installed_setup _ Hw) as Hw'. unfold well_installed in Hw'.
      rewrite Hwrap in Hw'. destruct Hw' as [Hnat _]. discriminate.
  - intros body st Hreach.
    destruct (reachable_invariant body st Hreach) as [_ Heng].
    unfold engine_routine in Heng.
    destruct (originalAssert st) as [f|]; [right; congruence | left; reflexivity].
  - intros st f Hsome. unfold restoreAssertions. rewrite Hsome. reflexivity.
  - intros st Hnone. unfold restoreAssertions. rewrite Hnone. reflexivity.
Qed.

(** ** Whole tests *)

(** X3. An aggregating test made of checks fails exactly when some check failed, and
    then with the report over the failures in the order of the checks. *)
Lemma soft_it_fails_iff_captured fuel body thenable cs1 cs2 st :
  engine_routine st = Native body ->
  let errors := captured body (List.app cs1 cs2) in
  let fn := mkBody (map as_assert cs1) thenable (map as_assert cs2) in
  (errors = [] ->
   soft_it (S (S fuel)) fn st
   = Some (Returned tt, mkState [] false (Some (Native body)) Wrapper)) /\
  (errors <> [] ->
   exists e,
     soft_it (S (S fuel)) fn st
     = Some (Thrown e, mkState [] false (Some (Native body)) Wrapper) /\
     err_message e = spec_composite_message (map message errors)).
Proof.
  intros Heng errors fn. subst fn.
  rewrite (soft_it_checks fuel body thenable cs1 cs2 st Heng). fold errors. split.
  - intros Hnil. rewrite Hnil. apply report_empty. reflexivity.
  - intros Hne.
    set (st2 := mkState errors false (Some (Native body)) Wrapper).
    assert (Hne2 : softAssertionErrors st2 <> []) by exact Hne.
    rewrite (report_nonempty st2 Hne2). eexists. split; [reflexivity|].
    cbn [err_message softAssertionErrors st2]. rewrite (finalMessage_lines _ Hne).
    unfold spec_composite_message, array_map.
    rewrite (map_from_numbered errors 0), length_map. reflexivity.
Qed.

(** A command that fails on the [cy] chain stops the chain before the appended
    step: the test fails with that error and the adapter's state is as the
    chain left it. *)
Lemma chain_failure_skips_final_step fuel fn st st1 st2 err :
  returns_thenable fn = false ->
  run_actions fuel (sync_actions fn) (body_start st) = Some (Returned tt, st1) ->
  run_actions fuel (deferred_actions fn) st1 = Some (Thrown err, st2) ->
  soft_it fuel fn st = Some (Thrown err, st2).
Proof.
  intros Hplain Hsync Hdef. rewrite soft_it_eq. unfold adapter_paths.
  rewrite Hsync, Hdef, Hplain. reflexivity.
Qed.

(** ** Further properties of the shim *)

(** X1. [soft_it.only] runs the same lifecycle as [soft_it]: on every body and
    from every state the two callbacks give the same outcome and state. *)
Theorem soft_it_only_same_lifecycle fuel fn st :
  soft_it_only fuel fn st = soft_it fuel fn st.
Proof. rewrite soft_it_only_eq, soft_it_eq. reflexivity. Qed.

(** X2. With the flag on and the wrapper installed over the engine routine, a
    run of checks executes every check: it never throws, and the buffer grows
    by one record per failing check, in the order the checks ran. *)
Theorem soft_mode_runs_every_check fuel body checks st :
  isInSoftTest st = true ->
  originalAssert st = Some (Native body) ->
  chai_assert st = Wrapper ->
  run_actions (S (S fuel)) (map as_assert checks) st =
  Some (Returned tt,
        set_softAssertionErrors
          (List.app (softAssertionErrors st) (captured body checks)) st) /\
  (List.length (captured body checks) <= List.length checks)%nat.
Proof.
  intros Hsoft Horig Hslot. split.
  - apply run_checks_soft; assumption.
  - clear. induction checks as [|c rest IH]; [apply le_n|].
    cbn [captured List.length]. destruct (body (fst c) (snd c)); simpl; lia.
Qed.

(** X4. An aggregating test starts clean: its outcome and the state it leaves
    depend on the state before it only through the routine the wrapper
    delegates to, so records or a flag left behind by an earlier test never
    reach it. *)
Theorem soft_it_forgets_previous_test fuel fn st1 st2 :
  engine_routine st1 = engine_routine st2 ->
  soft_it fuel fn st1 = soft_it fuel fn st2 /\
  soft_it_only fuel fn st1 = soft_it_only fuel fn st2.
Proof.
  intros Heng. rewrite !soft_it_eq, ?soft_it_only_eq. unfold adapter_paths.
  rewrite !body_start_eq, Heng. split; reflexivity.
Qed.

(** X5. A test whose body and deferred work finish reaches the report step and
    ends, passed or failed, with the flag off, the buffer empty and the wrapper
    still installed over the captured original; it passes exactly when the
    buffer was empty at that step. *)
Theorem reported_test_final_state fuel fn st st1 st2 :
  run_actions fuel (sync_actions fn) (body_start st) = Some (Returned tt, st1) ->
  run_actions fuel (deferred_actions fn) st1 = Some (Returned tt, st2) ->
  exists o,
    soft_it fuel fn st
      = Some (o, mkState [] false (Some (engine_routine st)) Wrapper) /\
    (o = Returned tt <-> softAssertionErrors st2 = []).
Proof.
  intros Hsync Hdef. rewrite soft_it_eq. unfold adapter_paths.
  rewrite Hsync, Hdef.
  destruct (buffer_only_run_actions _ _ _ _ _ Hsync) as (Ha1 & Ha2 & _).
  destruct (buffer_only_run_actions _ _ _ _ _ Hdef) as (Hb1 & Hb2 & _).
  rewrite body_start_eq in Ha1, Ha2. cbn [originalAssert chai_assert] in Ha1, Ha2.
  rewrite Ha1 in Hb1. rewrite Ha2 in Hb2.
  destruct st2 as [buf flag orig slot]. cbn in Hb1, Hb2. subst orig slot.
  destruct buf as [|entry rest].
  - exists (Returned tt). split; [reflexivity|]. split; reflexivity.
  - rewrite report_nonempty by (cbn; discriminate).
    eexists. split; [reflexivity|]. split; discriminate.
Qed.

(** X6. When a queued command of a body that returned no awaitable fails, the
    step appended to the chain never runs: the test fails with that error, no
    report is raised, and the flag is still on with the wrapper installed, so
    that the checks of a regular test that follows are recorded instead of
    failing it. *)
Theorem chain_failure_leaves_soft_mode_on fuel body fn st st1 st2 err :
  engine_routine st = Native body ->
  returns_thenable fn = false ->
  run_actions fuel (sync_actions fn) (body_start st) = Some (Returned tt, st1) ->
  run_actions fuel (deferred_actions fn) st1 = Some (Thrown err, st2) ->
  soft_it fuel fn st = Some (Thrown err, st2) /\
  isInSoftTest st2 = true /\
  chai_assert st2 = Wrapper /\
  forall fuel' checks,
    regular_it (S (S fuel')) (map as_assert checks) st2 =
    Some (Returned tt,
          set_softAssertionErrors
            (List.app (softAssertionErrors st2) (captured body checks)) st2).
Proof.
  intros Heng Hplain Hsync Hdef.
  destruct (buffer_only_run_actions _ _ _ _ _ Hsync) as (Ha1 & Ha2 & Ha3).
  destruct (buffer_only_run_actions _ _ _ _ _ Hdef) as (Hb1 & Hb2 & Hb3).
  rewrite body_start_eq in Ha1, Ha2, Ha3.
  cbn [originalAssert chai_assert isInSoftTest] in Ha1, Ha2, Ha3.
  assert (Hflag : isInSoftTest st2 = true) by congruence.
  assert (Hslot : chai_assert st2 = Wrapper) by congruence.
  assert (Horig : originalAssert st2 = Some (Native body)) by congruence.
  split; [|split; [exact Hflag | split; [exact Hslot|]]].
  - rewrite soft_it_eq. unfold adapter_paths. rewrite Hsync, Hdef, Hplain.
    reflexivity.
  - intros fuel' checks. unfold regular_it. apply run_checks_soft; assumption.
Qed.

(** X8. Install then uninstall puts into the engine's slot the routine the
    wrapper delegates to; at the first install that is the routine the slot had,
    and the state differs from the one before only by the captured reference.
    Uninstalling twice is uninstalling once, and an install after an uninstall
    is an install. *)
Theorem install_uninstall_round_trip :
  (forall st,
      chai_assert (restoreAssertions (setupSoftAssertions st)) = engine_routine st) /\
  (forall st,
      originalAssert st = None ->
      restoreAssertions (setupSoftAssertions st)
      = set_originalAssert (Some (chai_assert st)) st) /\
  (forall st, restoreAssertions (restoreAssertions st) = restoreAssertions st) /\
  (forall st, setupSoftAssertions (restoreAssertions st) = setupSoftAssertions st).
Proof.
  split; [|split; [|split]].
  - intros st. unfold restoreAssertions, setupSoftAssertions, engine_routine.
    destruct (originalAssert st) as [f|] eqn:Eo; cbn; rewrite ?Eo; reflexivity.
  - intros st Hnone. unfold restoreAssertions, setupSoftAssertions.
    rewrite Hnone. reflexivity.
  - intros st. unfold restoreAssertions.
    destruct (originalAssert st) as [f|] eqn:Eo; cbn; rewrite ?Eo; reflexivity.
  - intros st. unfold restoreAssertions, setupSoftAssertions.
    destruct (originalAssert st) as [f|] eqn:Eo; cbn; rewrite ?Eo; reflexivity.
Qed.

(** X9. The reporter leaves nothing to report: after any call of it the buffer
    is empty, and calling it again returns normally without changing the
    state. *)
Theorem report_leaves_nothing_to_report st o st' :
  reportSoftAssertionFailures st = Some (o, st') ->
  softAssertionErrors st' = [] /\
  reportSoftAssertionFailures st' = Some (Returned tt, st').
Proof.
  intros Hrun.
  assert (Hempty : softAssertionErrors st' = []).
  { unfold reportSoftAssertionFailures, bind, gets, modify, throw, ret in Hrun.
    destruct (softAssertionErrors st) as [|entry rest] eqn:Ebuf;
      cbn in Hrun; inversion Hrun; subst; [exact Ebuf | reflexivity]. }
  split; [exact Hempty | apply report_empty; exact Hempty].
Qed.

Lemma call_appends fuel :
  forall r this args st o st',
    call fuel r this args st = Some (o, st') ->
    exists extra,
      softAssertionErrors st' = List.app (softAssertionErrors st) extra.
Proof.
  induction fuel as [|fuel IH]; intros r this args st o st' Hrun; [discriminate|].
  destruct r as [body|].
  - rewrite call_native_eq in Hrun. inversion Hrun; subst.
    exists []. rewrite app_nil_r. reflexivity.
  - rewrite call_wrapper_eq in Hrun.
    assert (Hdel : forall o1 st1,
               apply_original fuel this args st = Some (o1, st1) ->
               exists extra,
                 softAssertionErrors st1 = List.app (softAssertionErrors st) extra).
    { intros o1 st1. unfold apply_original, bind, gets.
      destruct (originalAssert st) as [f|].
      - apply IH.
      - unfold throw. intros Hc. inversion Hc; subst.
        exists []. rewrite app_nil_r. reflexivity. }
    destruct (apply_original fuel this args st) as [[[v|e] st1]|]; try discriminate;
      destruct (Hdel _ _ eq_refl) as [extra Hextra].
    + inversion Hrun; subst. eauto.
    + destruct (isInSoftTest st); inversion Hrun; subst; [|eauto].
      cbn [softAssertionErrors set_softAssertionErrors]. rewrite Hextra.
      rewrite <- app_assoc. eauto.
Qed.

(** X10. Whatever a test body does through the engine's slot, the shim's state
    changes in one way only: records are appended to the buffer.  The flag, the
    captured original and the slot are as before and no record is removed or
    altered. *)
Theorem checks_only_append fuel actions :
  forall st o st',
    run_actions fuel actions st = Some (o, st') ->
    isInSoftTest st' = isInSoftTest st /\
    originalAssert st' = originalAssert st /\
    chai_assert st' = chai_assert st /\
    exists extra,
      softAssertionErrors st' = List.app (softAssertionErrors st) extra.
Proof.
  intros st o st' Hrun.
  destruct (buffer_only_run_actions _ _ _ _ _ Hrun) as (H1 & H2 & H3).
  repeat split; try assumption.
  revert st o st' Hrun H1 H2 H3.
  induction actions as [|[this args|err] rest IH]; intros st o st' Hrun _ _ _.
  - inversion Hrun; subst. exists []. rewrite app_nil_r. reflexivity.
  - change (run_actions fuel (Assert this args :: rest) st) with
      ((slot <- gets chai_assert ;;
        call fuel slot this args ;;
        run_actions fuel rest) st) in Hrun.
    unfold bind, gets in Hrun.
    destruct (call fuel (chai_assert st) this args st) as [[[v|e] st1]|] eqn:Ec;
      try discriminate;
      destruct (call_appends _ _ _ _ _ _ _ Ec) as [extra1 Hextra1].
    + destruct (buffer_only_run_actions _ _ _ _ _ Hrun) as (K1 & K2 & K3).
      destruct (IH _ _ _ Hrun K1 K2 K3) as [extra2 Hextra2].
      exists (List.app extra1 extra2). rewrite Hextra2, Hextra1.
      rewrite <- app_assoc. reflexivity.
    + inversion Hrun; subst. eauto.
  - inversion Hrun; subst. exists []. rewrite app_nil_r. reflexivity.
Qed.

Lemma call_fuel_indep fuel r this args st :
  well_installed st ->
  call (S (S fuel)) r this args st = call 2 r this args st.
Proof.
  intros Hw. destruct r as [body|]; [reflexivity|].
  rewrite !call_wrapper_eq. unfold well_installed in Hw.
  destruct (originalAssert st) as [f|] eqn:Eo.
  - destruct f as [body|]; [|destruct Hw; discriminate].
    rewrite (apply_original_native fuel body this args st Eo).
    rewrite (apply_original_native 0 body this args st Eo). reflexivity.
  - rewrite !(apply_original_null _ this args st Eo). reflexivity.
Qed.

Lemma run_actions_fuel_indep fuel actions :
  forall st,
    well_installed st ->
    run_actions (S (S fuel)) actions st = run_actions 2 actions st.
Proof.
  induction actions as [|[this args|err] rest IH]; intros st Hw; try reflexivity.
  change (run_actions (S (S fuel)) (Assert this args :: rest) st) with
    ((slot <- gets chai_assert ;;
      call (S (S fuel)) slot this args ;;
      run_actions (S (S fuel)) rest) st).
  change (run_actions 2 (Assert this args :: rest) st) with
    ((slot <- gets chai_assert ;;
      call 2 slot this args ;;
      run_actions 2 rest) st).
  unfold bind, gets. rewrite (call_fuel_indep fuel _ this args st Hw).
  destruct (call 2 (chai_assert st) this args st) as [[[v|e] st1]|] eqn:Ec;
    try reflexivity.
  apply IH. destruct (buffer_only_call _ _ _ _ _ _ _ Ec) as (H1 & H2 & _).
  apply (well_installed_frame st); assumption.
Qed.

Lemma adapter_fuel_indep fuel fn st :
  well_installed st ->
  adapter_paths (S (S fuel)) fn st = adapter_paths 2 fn st.
Proof.
  intros Hw. unfold adapter_paths.
  pose proof (well_installed_body_start st Hw) as Hw0.
  rewrite (run_actions_fuel_indep fuel (sync_actions fn) _ Hw0).
  destruct (run_actions 2 (sync_actions fn) (body_start st))
    as [[[[]|err] st1]|] eqn:Esync; try reflexivity.
  assert (Hw1 : well_installed st1).
  { destruct (buffer_only_run_actions _ _ _ _ _ Esync) as (H1 & H2 & _).
    apply (well_installed_frame (body_start st)); assumption. }
  rewrite (run_actions_fuel_indep fuel (deferred_actions fn) _ Hw1). reflexivity.
Qed.

(** X11. Between tests the wrapper never ends up calling itself: every test,
    aggregating or regular, completes with a call depth of two, and a larger
    depth gives the same outcome and state. *)
Theorem reachable_runs_complete body st t :
  reachable body st ->
  exists o st',
    forall fuel, run_test (S (S fuel)) t st = Some (o, st').
Proof.
  intros Hreach. destruct (reachable_invariant body st Hreach) as [Hw _].
  destruct t as [fn|fn|actions]; cbn [run_test].
  - destruct (adapter_total 0 fn st Hw) as (o & st' & Hrun).
    exists o, st'. intros fuel.
    rewrite soft_it_eq, (adapter_fuel_indep fuel fn st Hw). exact Hrun.
  - destruct (adapter_total 0 fn st Hw) as (o & st' & Hrun).
    exists o, st'. intros fuel.
    rewrite soft_it_only_eq, (adapter_fuel_indep fuel fn st Hw). exact Hrun.
  - destruct (run_actions_total 0 actions st Hw) as (o & st' & Hrun).
    exists o, st'. intros fuel. unfold regular_it.
    rewrite (run_actions_fuel_indep fuel actions st Hw). exact Hrun.
Qed.

(** X12. Between tests the engine's slot holds the engine's own routine or the
    wrapper, nothing else, and whenever it holds the wrapper the engine's
    routine has been captured: the wrapper is never installed without an
    original to delegate to. *)
Theorem slot_between_tests body st :
  reachable body st ->
  (chai_assert st = Native body \/ chai_assert st = Wrapper) /\
  (chai_assert st = Wrapper -> originalAssert st = Some (Native body)).
Proof.
  intros Hreach. destruct (reachable_invariant body st Hreach) as [Hw Heng].
  unfold well_installed in Hw. unfold engine_routine in Heng.
  destruct (originalAssert st) as [f|].
  - subst f. destruct Hw as [_ [Hslot|Hslot]]; split; auto.
  - split; [left; exact Heng|]. intros Hwrap. rewrite Hwrap in Heng. discriminate.
Qed.


End Shim.

(** ** The statements at concrete inputs *)

Lemma wrapper_soft_mode_records_witness :
  call sample_engine 2 Wrapper (VObj 1) [VBool false; VStr "A"] (installed_state true)
  = Some (Returned VUndefined,
          mkState [entry_of (assertion_error "A")] true
                  (Some (Native chai_like)) Wrapper).
Proof.
  exact (wrapper_soft_mode_records sample_engine 0 chai_like (VObj 1)
           [VBool false; VStr "A"] (installed_state true) eq_refl eq_refl).
Defined.

Lemma report_raises_iff_failures_witness :
  exists e st',
    reportSoftAssertionFailures sample_engine two_failures_state = Some (Thrown e, st').
Proof.
  apply (proj1 (report_raises_iff_failures sample_engine two_failures_state)).
  exact (Nat.lt_0_succ 1).
Defined.

Lemma composite_message_format_witness :
  exists e,
    reportSoftAssertionFailures sample_engine two_failures_state
      = Some (Thrown e, set_softAssertionErrors [] two_failures_state) /\
    err_message e = spec_composite_message ["A"; "C"].
Proof.
  apply (composite_message_format sample_engine two_failures_state).
  discriminate.
Defined.

(** C4, the counterexample: a soft failure "A" followed by a hard error in the
    body; the test is aborted and the record of "A" is still in the buffer. *)
Lemma hard_abort_leaves_records :
  soft_it sample_engine 2 sync_abort_body (initial_state (Native chai_like))
    = Some (Thrown hard_error, aborted_state) /\
  softAssertionErrors aborted_state <> [].
Proof. split; [vm_compute; reflexivity | discriminate]. Qed.

Lemma buffer_lifecycle_witness :
  exists st',
    soft_it sample_engine 2 sync_abort_body (initial_state (Native chai_like))
      = Some (Thrown hard_error, st') /\
    softAssertionErrors st' = [entry_of (assertion_error "A")].
Proof.
  apply (proj1 (proj2 (proj2 (buffer_lifecycle sample_engine)))
           2 sync_abort_body (initial_state (Native chai_like)) hard_error
           (mkState [entry_of (assertion_error "A")] true
                    (Some (Native chai_like)) Wrapper)).
  reflexivity.
Defined.

(** C5, the counterexample: the awaitable rejects and the engine's slot holds
    the original routine again, not the wrapper; so for both variants. *)
Lemma rejection_uninstalls_wrapper :
  soft_it sample_engine 2 rejecting_body (initial_state (Native chai_like))
    = Some (Thrown hard_error, aborted_state) /\
  soft_it_only sample_engine 2 rejecting_body (initial_state (Native chai_like))
    = Some (Thrown hard_error, aborted_state) /\
  chai_assert aborted_state <> Wrapper.
Proof. repeat split; try (vm_compute; reflexivity). discriminate. Qed.

Lemma rejection_restores_witness :
  exists st',
    soft_it sample_engine 2 rejecting_body (initial_state (Native chai_like))
      = Some (Thrown hard_error, st') /\
    soft_it_only sample_engine 2 rejecting_body (initial_state (Native chai_like))
      = Some (Thrown hard_error, st') /\
    isInSoftTest st' = false /\
    chai_assert st' = Native chai_like /\
    originalAssert st' = Some (Native chai_like).
Proof.
  apply (rejection_restores sample_engine 2 rejecting_body
           (initial_state (Native chai_like))
           (mkState [entry_of (assertion_error "A")] true
                    (Some (Native chai_like)) Wrapper)
           (mkState [entry_of (assertion_error "A")] true
                    (Some (Native chai_like)) Wrapper)
           hard_error); reflexivity.
Defined.

Lemma sync_throw_restores_witness :
  exists st',
    soft_it sample_engine 2 sync_abort_body (initial_state (Native chai_like))
      = Some (Thrown hard_error, st') /\
    isInSoftTest st' = false /\
    chai_assert st' = Native chai_like /\
    originalAssert st' = Some (Native chai_like).
Proof.
  apply (sync_throw_restores sample_engine 2 sync_abort_body
           (initial_state (Native chai_like)) hard_error
           (mkState [entry_of (assertion_error "A")] true
                    (Some (Native chai_like)) Wrapper)).
  reflexivity.
Defined.

Lemma wrapper_plain_mode_delegates_witness :
  call sample_engine 2 Wrapper (VObj 1) [VBool false; VStr "A"] (installed_state false)
    = Some (Thrown (assertion_error "A"), installed_state false) /\
  exists body,
    originalAssert (installed_state false) = Some (Native body) /\
    forall actions,
      regular_it sample_engine 2 actions (installed_state false)
      = Some (first_failure body actions, installed_state false).
Proof.
  split.
  - exact (proj1 (wrapper_plain_mode_delegates sample_engine) 0 chai_like (VObj 1)
             [VBool false; VStr "A"] (installed_state false) eq_refl eq_refl).
  - apply (proj2 (wrapper_plain_mode_delegates sample_engine) 0
             (mkBody [failing_check "A"; passing_check] false [failing_check "C"])
             (initial_state (Native chai_like))
             (Thrown (mkError "SoftAssertionError"
                              (finalMessage (softAssertionErrors two_failures_state))
                              None))
             (installed_state false)).
    + reflexivity.
    + vm_compute. reflexivity.
    + reflexivity.
Defined.

Lemma numbering_counts_failures_only_witness :
  exists e st',
    soft_it sample_engine 2
            (mkBody (map as_assert [check_A]) false (map as_assert [check_ok; check_C]))
            (initial_state (Native chai_like))
      = Some (Thrown e, st') /\
    err_message e = scenario_message /\
    softAssertionErrors st' = [].
Proof.
  apply (numbering_counts_failures_only sample_engine 0 chai_like
           (initial_state (Native chai_like)) false check_A check_ok check_C
           [check_A] [check_ok; check_C]
           (assertion_error "A") (assertion_error "C") (VNum 7));
    reflexivity.
Defined.

Lemma install_uninstall_contract_witness :
  setupSoftAssertions (initial_state (Native chai_like))
    = mkState [] false (Some (Native chai_like)) Wrapper /\
  restoreAssertions (installed_state false)
    = mkState [] false (Some (Native chai_like)) (Native chai_like) /\
  restoreAssertions (initial_state (Native chai_like)) = initial_state (Native chai_like).
Proof.
  destruct (install_uninstall_contract sample_engine)
    as (Hfirst & _ & _ & _ & _ & _ & Hrestore & Hnoop).
  split; [|split].
  - exact (Hfirst (initial_state (Native chai_like)) eq_refl).
  - exact (Hrestore (installed_state false) (Native chai_like) eq_refl).
  - exact (Hnoop (initial_state (Native chai_like)) eq_refl).
Defined.

(** C10, the counterexample: flag off and the original failing; the wrapper
    does not return, the failure comes out of it. *)
Lemma wrapper_plain_failure_is_thrown :
  call sample_engine 2 Wrapper (VObj 1) [VBool false; VStr "A"] (installed_state false)
    = Some (Thrown (assertion_error "A"), installed_state false) /\
  Thrown (assertion_error "A") <> @Returned Value VUndefined.
Proof. split; [vm_compute; reflexivity | discriminate]. Qed.

Lemma wrapper_result_is_undefined_or_failure_witness :
  exists o st',
    call sample_engine 2 Wrapper (VObj 1) [VBool true; VStr "ok"] (installed_state false)
      = Some (o, st') /\
    o = Returned VUndefined.
Proof.
  exact (wrapper_result_is_undefined_or_failure sample_engine 0 chai_like (VObj 1)
           [VBool true; VStr "ok"] (installed_state false) eq_refl).
Defined.

(** ** The further properties at concrete inputs *)

Lemma soft_mode_runs_every_check_witness :
  run_actions sample_engine 2 (map as_assert [check_A; check_ok; check_C])
              (installed_state true)
  = Some (Returned tt,
          mkState [entry_of (assertion_error "A"); entry_of (assertion_error "C")]
                  true (Some (Native chai_like)) Wrapper) /\
  (2 <= 3)%nat.
Proof.
  exact (soft_mode_runs_every_check sample_engine 0 chai_like
           [check_A; check_ok; check_C] (installed_state true)
           eq_refl eq_refl eq_refl).
Defined.

Lemma soft_it_fails_iff_captured_witness :
  exists e,
    soft_it sample_engine 2
            (mkBody (map as_assert [check_A]) true (map as_assert [check_ok; check_C]))
            (initial_state (Native chai_like))
      = Some (Thrown e, mkState [] false (Some (Native chai_like)) Wrapper) /\
    err_message e = spec_composite_message ["A"; "C"].
Proof.
  apply (proj2 (soft_it_fails_iff_captured sample_engine 0 chai_like true
                  [check_A] [check_ok; check_C]
                  (initial_state (Native chai_like)) eq_refl)).
  discriminate.
Defined.

Lemma soft_it_forgets_previous_test_witness :
  soft_it sample_engine 2 sync_abort_body aborted_state
    = soft_it sample_engine 2 sync_abort_body (initial_state (Native chai_like)) /\
  soft_it_only sample_engine 2 sync_abort_body aborted_state
    = soft_it_only sample_engine 2 sync_abort_body (initial_state (Native chai_like)).
Proof.
  exact (soft_it_forgets_previous_test sample_engine 2 sync_abort_body
           aborted_state (initial_state (Native chai_like)) eq_refl).
Defined.

Lemma reported_test_final_state_witness :
  exists o,
    soft_it sample_engine 2 (mkBody [failing_check "A"] false [passing_check])
            (initial_state (Native chai_like))
      = Some (o, mkState [] false (Some (Native chai_like)) Wrapper) /\
    (o = Returned tt <-> [entry_of (assertion_error "A")] = []).
Proof.
  exact (reported_test_final_state sample_engine 2
           (mkBody [failing_check "A"] false [passing_check])
           (initial_state (Native chai_like))
           (mkState [entry_of (assertion_error "A")] true
                    (Some (Native chai_like)) Wrapper)
           (mkState [entry_of (assertion_error "A")] true
                    (Some (Native chai_like)) Wrapper)
           eq_refl eq_refl).
Defined.

Lemma chain_failure_leaves_soft_mode_on_witness :
  soft_it sample_engine 2 chain_abort_body (initial_state (Native chai_like))
    = Some (Thrown hard_error, chain_aborted_state) /\
  isInSoftTest chain_aborted_state = true /\
  chai_assert chain_aborted_state = Wrapper /\
  forall fuel' checks,
    regular_it sample_engine (S (S fuel')) (map as_assert checks) chain_aborted_state =
    Some (Returned tt,
          set_softAssertionErrors
            (List.app (softAssertionErrors chain_aborted_state)
                      (captured chai_like checks))
            chain_aborted_state).
Proof.
  exact (chain_failure_leaves_soft_mode_on sample_engine 2 chai_like chain_abort_body
           (initial_state (Native chai_like)) chain_aborted_state chain_aborted_state
           hard_error eq_refl eq_refl eq_refl eq_refl).
Defined.

Lemma install_uninstall_round_trip_witness :
  restoreAssertions (setupSoftAssertions (initial_state (Native chai_like)))
  = mkState [] false (Some (Native chai_like)) (Native chai_like).
Proof.
  exact (proj1 (proj2 install_uninstall_round_trip)
           (initial_state (Native chai_like)) eq_refl).
Defined.

Lemma report_leaves_nothing_to_report_witness :
  softAssertionErrors (set_softAssertionErrors [] two_failures_state) = [] /\
  reportSoftAssertionFailures sample_engine (set_softAssertionErrors [] two_failures_state)
    = Some (Returned tt, set_softAssertionErrors [] two_failures_state).
Proof.
  exact (report_leaves_nothing_to_report sample_engine two_failures_state
           (Thrown (mkError "SoftAssertionError"
                            (finalMessage (softAssertionErrors two_failures_state))
                            None))
           (set_softAssertionErrors [] two_failures_state) eq_refl).
Defined.

Lemma checks_only_append_witness :
  isInSoftTest chain_aborted_state = isInSoftTest (installed_state true) /\
  originalAssert chain_aborted_state = originalAssert (installed_state true) /\
  chai_assert chain_aborted_state = chai_assert (installed_state true) /\
  exists extra,
    softAssertionErrors chain_aborted_state
    = List.app (softAssertionErrors (installed_state true)) extra.
Proof.
  exact (checks_only_append sample_engine 2 [failing_check "A"; passing_check]
           (installed_state true) (Returned tt) chain_aborted_state eq_refl).
Defined.

Lemma reachable_runs_complete_witness :
  exists o st',
    forall fuel,
      run_test sample_engine (S (S fuel)) (RunSoftIt chain_abort_body)
               (initial_state (Native chai_like))
      = Some (o, st').
Proof.
  exact (reachable_runs_complete sample_engine chai_like
           (initial_state (Native chai_like)) (RunSoftIt chain_abort_body)
           (reach_loaded sample_engine chai_like)).
Defined.

Lemma slot_between_tests_witness :
  (chai_assert aborted_state = Native chai_like \/ chai_assert aborted_state = Wrapper) /\
  (chai_assert aborted_state = Wrapper ->
   originalAssert aborted_state = Some (Native chai_like)).
Proof.
  apply (slot_between_tests sample_engine chai_like aborted_state).
  apply (reach_test sample_engine chai_like (initial_state (Native chai_like)) 2
           (RunSoftIt sync_abort_body) (Thrown hard_error) aborted_state).
  - apply reach_loaded.
  - reflexivity.
Defined.


(** C7. The wrapper's pass-through with the flag off does not give a regular
    test its first-failure semantics after every aggregating test.  An
    aggregating test whose queued command fails ends with the flag on and the
    wrapper installed; the regular test that follows issues a failing check and
    ends normally, the failure recorded in the buffer, where the engine's own
    routine stops the test with that failure. *)
Theorem regular_test_after_chain_failure_passes :
  soft_it sample_engine 2 chain_abort_body (initial_state (Native chai_like))
    = Some (Thrown hard_error, chain_aborted_state) /\
  isInSoftTest chain_aborted_state = true /\
  regular_it sample_engine 2 [failing_check "C"] chain_aborted_state
    = Some (Returned tt,
            mkState [entry_of (assertion_error "A"); entry_of (assertion_error "C")]
                    true (Some (Native chai_like)) Wrapper) /\
  first_failure chai_like [failing_check "C"] = Thrown (assertion_error "C").
Proof. repeat split; vm_compute; reflexivity. Qed.
